(** * create_assets.py: placeholder asset generator

    A shallow embedding of [mobile/create_assets.py] together with the
    part of the Python runtime the script calls: [base64.b64decode],
    [os.makedirs], [open(..., 'wb')], the [with] statement and [print].

    The script itself is twenty lines; what it does is decided almost
    entirely by those primitives, so they are modelled explicitly:

    - [binascii] / [base64]: the decoder is the character loop of
      CPython's [binascii.a2b_base64] in its default (non-strict) mode;
    - a file system is a finite map from component paths (relative to
      the working directory) to nodes; [mkdir] and [open_wb] check the
      parent and the target the way the system calls do, and an [env]
      record says which operations the surrounding system refuses;
    - [Py] is a state-and-exception monad over the file system and an
      event trace.  A raised exception keeps the state reached so far. *)

From Stdlib Require Import ZArith Ascii String.
From stdpp Require Import gmap strings list fin_maps.

Local Open Scope Z_scope.

(** ** Exceptions and results *)

Inductive exn : Type :=
  | ValueError
  | BinasciiError
  | FileExistsError
  | FileNotFoundError
  | NotADirectoryError
  | IsADirectoryError
  | PermissionError
  | NoSpaceError.

(** [is_OSError e]: [e] is an instance of Python's [OSError]. *)
Definition is_OSError (e : exn) : bool :=
  match e with
  | ValueError | BinasciiError => false
  | _ => true
  end.

Definition is_FileExistsError (e : exn) : bool :=
  match e with
  | FileExistsError => true
  | _ => false
  end.

Inductive result (A : Type) : Type :=
  | Ok (a : A)
  | Raise (e : exn).
Arguments Ok {A} a.
Arguments Raise {A} e.

(** ** Base64 decoding *)

Module binascii.

(** Value of a base64 alphabet character, [64] for any other byte
    (the C table holds an out-of-range marker there, tested with
    [>= 64]). *)
Definition table_a2b_base64 (c : Z) : Z :=
  if (65 <=? c) && (c <=? 90) then c - 65
  else if (97 <=? c) && (c <=? 122) then c - 71
  else if (48 <=? c) && (c <=? 57) then c + 4
  else if c =? 43 then 62
  else if c =? 47 then 63
  else 64.

Definition BASE64_PAD : Z := 61.

(** An [unsigned char] store. *)
Definition u8 (z : Z) : Z := Z.land z 255.

(** Loop state: position in the current quad, bits left over from the
    previous character, pads seen since the last data character. *)
Record dstate : Type := DState
  { quad_pos : Z; leftchar : Z; pads : Z }.

Definition dinit : dstate :=
  {| quad_pos := 0; leftchar := 0; pads := 0 |}.

(** The [for] loop of [a2b_base64] with [strict_mode = 0].  [out] holds
    the bytes produced so far, most recent first.  Reaching a complete
    pad sequence leaves the loop at once ([goto done]). *)
Fixpoint a2b_loop (data : list Z) (st : dstate) (out : list Z)
  : result (list Z) :=
  match data with
  | [] =>
      if quad_pos st =? 0 then Ok (rev out)
      else Raise BinasciiError
  | this_ch :: rest =>
      if this_ch =? BASE64_PAD then
        if (2 <=? quad_pos st) && (4 <=? quad_pos st + (pads st + 1))
        then Ok (rev out)
        else if 2 <=? quad_pos st
             then a2b_loop rest
                    {| quad_pos := quad_pos st; leftchar := leftchar st;
                       pads := pads st + 1 |} out
             else a2b_loop rest st out
      else
        let v := table_a2b_base64 this_ch in
        if 64 <=? v then a2b_loop rest st out
        else
          let q := quad_pos st in
          let lc := leftchar st in
          if q =? 0 then
            a2b_loop rest {| quad_pos := 1; leftchar := v; pads := 0 |} out
          else if q =? 1 then
            a2b_loop rest
              {| quad_pos := 2; leftchar := Z.land v 15; pads := 0 |}
              (u8 (Z.lor (Z.shiftl lc 2) (Z.shiftr v 4)) :: out)
          else if q =? 2 then
            a2b_loop rest
              {| quad_pos := 3; leftchar := Z.land v 3; pads := 0 |}
              (u8 (Z.lor (Z.shiftl lc 4) (Z.shiftr v 2)) :: out)
          else
            a2b_loop rest
              {| quad_pos := 0; leftchar := 0; pads := 0 |}
              (u8 (Z.lor (Z.shiftl lc 6) v) :: out)
  end.

Definition a2b_base64 (data : list Z) : result (list Z) :=
  a2b_loop data dinit [].

End binascii.

Module base64.

Definition ord (c : Ascii.ascii) : Z := Z.of_N (Ascii.N_of_ascii c).

(** [s.encode('ascii')]: a [str] argument must be pure ASCII. *)
Fixpoint encode_ascii (s : string) : result (list Z) :=
  match s with
  | EmptyString => Ok []
  | String c s' =>
      if 128 <=? ord c then Raise ValueError
      else match encode_ascii s' with
           | Ok bs => Ok (ord c :: bs)
           | Raise e => Raise e
           end
  end.

(** [base64.b64decode(s)] with [altchars=None, validate=False]. *)
Definition b64decode (s : string) : result (list Z) :=
  match encode_ascii s with
  | Ok bs => binascii.a2b_base64 bs
  | Raise e => Raise e
  end.

End base64.

(** ** The script's constants *)

Definition green_pixel : string :=
  "iVBORw0KGgoAAAANSUhEUgAAAAEAAAABCAYAAAAfFcSJAAAADUlEQVR42mNk+M9QDwADhgGAWjR9awAAAABJRU5ErkJggg==".

Definition assets : list string :=
  ["icon.png"; "splash.png"; "adaptive-icon.png"; "favicon.png"].

(** ** File system, environment and events *)

(** A path is the list of its components below the working directory;
    [[]] is the working directory itself. *)
Abbreviation path := (list string).

Inductive node : Type :=
  | Dir
  | File (data : list Z).

(** [components s] cuts [s] at every ["/"]. *)
Fixpoint components (s : string) : list string :=
  match s with
  | EmptyString => [EmptyString]
  | String c s' =>
      if Ascii.eqb c "/"%char then EmptyString :: components s'
      else match components s' with
           | [] => [String c EmptyString]
           | x :: xs => String c x :: xs
           end
  end.

Definition is_name (c : string) : bool :=
  negb (String.eqb c "") && negb (String.eqb c ".").

(** Path resolution of a relative path name: empty components (doubled
    or trailing slashes) and ["."] are skipped.  Absolute names and
    [".."] do not occur in the script and are not interpreted. *)
Definition resolve (name : string) : path :=
  List.filter is_name (components name).

Definition parent (p : path) : path := removelast p.

(** What the surrounding system decides.  The script reads none of the
    first four fields; the last three say which operations are refused
    (permissions, read-only media) and how many bytes a file may take
    (quota, full disk; [None] is no limit). *)
Record env : Type := Env
  { argv : list string;
    environ : list (string * string);
    clock : Z;
    locale : string;
    mkdir_refused : path -> bool;
    open_refused : path -> bool;
    room : path -> option nat }.

Inductive event : Type :=
  | EvMkdir (p : path)
  | EvOpen (p : path)
  | EvWrite (p : path) (data : list Z)
  | EvClose (p : path)
  | EvPrint (line : string).

Record world : Type := World
  { fs : gmap path node;
    trace : list event }.

Definition node_at (m : gmap path node) (p : path) : option node :=
  match p with
  | [] => Some Dir
  | _ => m !! p
  end.

(** Lines written to standard output, oldest first. *)
Definition console (t : list event) : list string :=
  omap (fun e => match e with EvPrint l => Some l | _ => None end) t.

(** Paths passed to [open], oldest first. *)
Definition opened (t : list event) : list path :=
  omap (fun e => match e with EvOpen p => Some p | _ => None end) t.

(** ** The monad of script fragments *)

Definition Py (A : Type) : Type := world -> result A * world.

Definition ret {A} (a : A) : Py A := fun w => (Ok a, w).

Definition raise {A} (e : exn) : Py A := fun w => (Raise e, w).

Definition bind {A B} (m : Py A) (k : A -> Py B) : Py B :=
  fun w =>
    match m w with
    | (Ok a, w') => k a w'
    | (Raise e, w') => (Raise e, w')
    end.

Declare Scope py_scope.
Delimit Scope py_scope with py.
Notation "x <- m ;; k" := (bind m (fun x => k))
  (at level 100, m at next level, right associativity) : py_scope.
Notation "m ;; k" := (bind m (fun _ => k))
  (at level 100, right associativity) : py_scope.
Local Open Scope py_scope.

Definition lift {A} (r : result A) : Py A := fun w => (r, w).

Definition get_fs : Py (gmap path node) := fun w => (Ok (fs w), w).

Definition put_fs (m : gmap path node) : Py unit :=
  fun w => (Ok tt, {| fs := m; trace := trace w |}).

Definition emit (e : event) : Py unit :=
  fun w => (Ok tt, {| fs := fs w; trace := trace w ++ [e] |}).

(** [try: m except <catches>: handler]. *)
Definition try_except {A} (m : Py A) (catches : exn -> bool)
    (handler : exn -> Py A) : Py A :=
  fun w =>
    match m w with
    | (Raise e, w') => if catches e then handler e w' else (Raise e, w')
    | r => r
    end.

(** [with ctx as x: body]: [exit] runs however [body] ends, and an
    exception raised by [exit] replaces the one in flight. *)
Definition with_ {A B} (ctx : Py A) (exit : A -> Py unit)
    (body : A -> Py B) : Py B :=
  x <- ctx ;;
  fun w =>
    match body x w with
    | (r, w') =>
        match exit x w' with
        | (Ok _, w'') => (r, w'')
        | (Raise e', w'') => (Raise e', w'')
        end
    end.

(** [for x in l: body]. *)
Fixpoint for_ {A} (l : list A) (body : A -> Py unit) : Py unit :=
  match l with
  | [] => ret tt
  | x :: l' => body x ;; for_ l' body
  end.

Section Runtime.

Variable E : env.

(** *** [os] *)

(** [os.mkdir]: the parent must be a directory; an entry already at
    [p] is reported before the system is asked for permission. *)
Definition mkdir (p : path) : Py unit :=
  emit (EvMkdir p) ;;
  m <- get_fs ;;
  match node_at m (parent p) with
  | None => raise FileNotFoundError
  | Some (File _) => raise NotADirectoryError
  | Some Dir =>
      match node_at m p with
      | Some _ => raise FileExistsError
      | None =>
          if mkdir_refused E p then raise PermissionError
          else put_fs (<[p := Dir]> m)
      end
  end.

Definition path_exists (p : path) : Py bool :=
  m <- get_fs ;;
  ret (match node_at m p with Some _ => true | None => false end).

Definition path_isdir (p : path) : Py bool :=
  m <- get_fs ;;
  ret (match node_at m p with Some Dir => true | _ => false end).

(** The [try: mkdir(name) except OSError: ...] that ends [makedirs]:
    the error is swallowed when [exist_ok] is set and the path is a
    directory. *)
Definition mkdir_guarded (p : path) (exist_ok : bool) : Py unit :=
  try_except (mkdir p) is_OSError
    (fun e =>
       isd <- path_isdir p ;;
       if negb exist_ok || negb isd then raise e else ret tt).

(** [os.makedirs] on the components of its argument, last component
    first: [os.path.split] takes the last component off, so the
    recursive call is on the tail of the reversed list.  The head is
    visited only if it is not empty and does not exist. *)
Fixpoint makedirs_rev (rname : list string) (exist_ok : bool) : Py unit :=
  match rname with
  | [] => mkdir_guarded [] exist_ok
  | _ :: rhead =>
      (match rhead with
       | [] => ret tt
       | _ =>
           there <- path_exists (rev rhead) ;;
           if there then ret tt
           else try_except (makedirs_rev rhead exist_ok)
                  is_FileExistsError (fun _ => ret tt)
       end) ;;
      mkdir_guarded (rev rname) exist_ok
  end.

Definition makedirs (name : string) (exist_ok : bool) : Py unit :=
  makedirs_rev (rev (resolve name)) exist_ok.

(** *** Binary files opened for writing

    A file object is the path it was opened on.  Buffering is not
    modelled: the bytes reach the file at [write].  For the single
    [write] followed by [close] of the script the file ends up the
    same either way. *)

Definition open_wb (name : string) : Py path :=
  let p := resolve name in
  emit (EvOpen p) ;;
  m <- get_fs ;;
  match node_at m (parent p) with
  | None => raise FileNotFoundError
  | Some (File _) => raise NotADirectoryError
  | Some Dir =>
      match node_at m p with
      | Some Dir => raise IsADirectoryError
      | _ =>
          if open_refused E p then raise PermissionError
          else put_fs (<[p := File []]> m) ;; ret p
      end
  end.

Definition write (f : path) (data : list Z) : Py unit :=
  emit (EvWrite f data) ;;
  m <- get_fs ;;
  let old := match m !! f with Some (File d) => d | _ => [] end in
  match room E f with
  | Some k =>
      if (k <? length (old ++ data))%nat
      then put_fs (<[f := File (take k (old ++ data))]> m) ;;
           raise NoSpaceError
      else put_fs (<[f := File (old ++ data)]> m)
  | None => put_fs (<[f := File (old ++ data)]> m)
  end.

Definition close (f : path) : Py unit := emit (EvClose f).

Definition print (line : string) : Py unit := emit (EvPrint line).

(** *** The script *)

Definition created (asset : string) : string := "Created " +:+ asset.

Definition asset_file (asset : string) : string := "assets/" +:+ asset.

Definition success_line : string :=
  "All placeholder assets created successfully!".

(** Body of the [for] loop: the [with open(...)] block, then the
    [print]. *)
Definition write_asset (pixel_data : list Z) (asset : string) : Py unit :=
  with_ (open_wb (asset_file asset)) close
    (fun f => write f pixel_data) ;;
  print (created asset).

(** The module body, top to bottom: line 5, line 11, lines 16-19,
    line 21 of the script. *)
Definition create_assets : Py unit :=
  makedirs "assets" true ;;
  pixel_data <- lift (base64.b64decode green_pixel) ;;
  for_ assets (write_asset pixel_data) ;;
  print success_line.

End Runtime.

(** ** Derived notions used in the statements *)

(** The decoded image, byte by byte: PNG signature, [IHDR] (1 x 1,
    8-bit RGBA), [IDAT], [IEND]. *)
Definition payload : list Z :=
  [137; 80; 78; 71; 13; 10; 26; 10;
   0; 0; 0; 13; 73; 72; 68; 82; 0; 0; 0; 1; 0; 0; 0; 1; 8; 6; 0; 0; 0;
   31; 21; 196; 137;
   0; 0; 0; 13; 73; 68; 65; 84; 120; 218; 99; 100; 248; 207; 80; 15; 0; 3;
   134; 1; 128; 90; 52; 125; 107;
   0; 0; 0; 0; 73; 69; 78; 68; 174; 66; 96; 130].

Definition asset_path (asset : string) : path := resolve (asset_file asset).

(** Events of one completed iteration of the loop. *)
Definition write_events (d : list Z) (asset : string) : list event :=
  [EvOpen (asset_path asset); EvWrite (asset_path asset) d;
   EvClose (asset_path asset); EvPrint (created asset)].

(** [open(p, 'wb')] goes through in file system [m]. *)
Definition writable (E : env) (m : gmap path node) (p : path) : bool :=
  match node_at m (parent p) with
  | Some Dir =>
      match node_at m p with
      | Some Dir => false
      | _ => negb (open_refused E p)
      end
  | _ => false
  end.

(** A fresh file at [p] can take [n] bytes. *)
Definition fits (E : env) (p : path) (n : nat) : bool :=
  match room E p with
  | Some k => negb (k <? n)%nat
  | None => true
  end.

(** Every entry lies in a directory. *)
Definition well_formed (m : gmap path node) : Prop :=
  map_Forall (fun q _ => node_at m (parent q) = Some Dir) m.

Global Instance node_eq_dec : EqDecision node.
Proof. solve_decision. Defined.

Global Instance event_eq_dec : EqDecision event.
Proof. solve_decision. Defined.

Global Instance well_formed_dec m : Decision (well_formed m).
Proof. unfold well_formed. apply _. Defined.

(** Nonempty prefixes of a path, shortest first. *)
Definition prefixes (p : path) : list path :=
  List.map (fun n => take n p) (seq 1 (length p)).

(** The name contains a path separator. *)
Fixpoint has_sep (s : string) : bool :=
  match s with
  | EmptyString => false
  | String c s' => Ascii.eqb c "/"%char || has_sep s'
  end.

(** Paths passed to [write], oldest first. *)
Definition written (t : list event) : list path :=
  omap (fun e => match e with EvWrite p _ => Some p | _ => None end) t.

(** ** Notions used in the proofs *)

(** The world [w] with file system [m] and [evs] appended to its trace. *)
Definition after (w : world) (m : gmap path node) (evs : list event) : world :=
  {| fs := m; trace := trace w ++ evs |}.

(** The [with] block on its own, for any path name. *)
Definition with_block (E : env) (name : string) (d : list Z) : Py unit :=
  with_ (open_wb E name) close (fun f => write E f d).

(** Events of a [with] block that got past [open]. *)
Definition block_events (p : path) (d : list Z) : list event :=
  [EvOpen p; EvWrite p d; EvClose p].

(** The file system after the loop has stored [d] under every name of
    [l], starting from [m]. *)
Definition store_all (d : list Z) (l : list string) (m : gmap path node)
  : gmap path node :=
  foldl (fun m a => <[asset_path a := File d]> m) m l.

(** Events of a loop that completed every iteration over [l]. *)
Definition loop_events (d : list Z) (l : list string) : list event :=
  concat (write_events d <$> l).

(** The guarded [mkdir] with [exist_ok=True]. *)
Definition ensure_dir (E : env) (p : path) : Py unit :=
  mkdir_guarded E p true.

(** [q] is a directory already, or nothing is there and the system lets
    one be made. *)
Definition creatable (E : env) (m : gmap path node) (q : path) : bool :=
  match m !! q with
  | Some Dir => true
  | Some (File _) => false
  | None => negb (mkdir_refused E q)
  end.

(** What [makedirs] promises when every prefix of the path is
    [creatable]: the file system stays well formed, every prefix is a
    directory, and nothing that existed or lies off the path changed. *)
Definition ensured (w : world) (p : path) (w' : world) : Prop :=
  well_formed (fs w') /\
  Forall (fun q => fs w' !! q = Some Dir) (prefixes p) /\
  (forall q, is_Some (fs w !! q) \/ q ∉ prefixes p ->
             fs w' !! q = fs w !! q).

(** ** Sample environments and file systems *)

(** Nothing is refused and nothing is full. *)
Definition quiet : env :=
  {| argv := []; environ := []; clock := 0; locale := "C";
     mkdir_refused := fun _ => false; open_refused := fun _ => false;
     room := fun _ => None |}.

Definition start (m : gmap path node) : world := {| fs := m; trace := [] |}.

(** A regular file sits where the directory should go. *)
Definition blocked : gmap path node := {[ ["assets"] := File [] ]}.

(** The disk has room for ten bytes of [splash.png] only. *)
Definition tight : env :=
  {| argv := []; environ := []; clock := 0; locale := "C";
     mkdir_refused := fun _ => false; open_refused := fun _ => false;
     room := fun p =>
       if bool_decide (p = ["assets"; "splash.png"]) then Some 10%nat
       else None |}.

(** A project that already has a font and a file unrelated to the
    script next to the assets directory. *)
Definition furnished : gmap path node :=
  <[["assets"; "font.ttf"] := File [0; 1; 0; 0]]>
    (<[["assets"] := Dir]> {[ ["app.json"] := File [123; 125] ]}).

(** Another machine: other arguments, variables, time and locale. *)
Definition elsewhere : env :=
  {| argv := ["create_assets.py"; "--force"];
     environ := [("HOME", "/home/dev"); ("LANG", "gu_IN.UTF-8")];
     clock := 1700000000; locale := "gu_IN";
     mkdir_refused := fun p => bool_decide (p = ["build"]);
     open_refused := fun _ => false;
     room := fun _ => Some 4096%nat |}.




(** * Properties *)

(** ** The payload *)

Lemma b64decode_green_pixel : base64.b64decode green_pixel = Ok payload.
Proof. vm_compute. reflexivity. Qed.

Lemma payload_length : length payload = 70%nat.
Proof. reflexivity. Qed.

Lemma payload_bytes : Forall (fun b => 0 <= b < 256) payload.
Proof. unfold payload. repeat constructor; lia. Qed.

(** ** Path names *)

Lemma components_no_sep s : has_sep s = false -> components s = [s].
Proof.
  induction s as [|c s IH]; simpl; [done|].
  destruct (Ascii.eqb c "/"); simpl; [done|].
  intros H. by rewrite (IH H).
Qed.

Lemma resolve_asset_file a :
  has_sep a = false -> is_name a = true ->
  resolve (asset_file a) = ["assets"; a].
Proof.
  intros Hsep Hname. unfold resolve, asset_file. simpl.
  change ("" +:+ a) with a.
  rewrite (components_no_sep _ Hsep). simpl. by rewrite Hname.
Qed.

Lemma assets_plain :
  Forall (fun a => has_sep a = false /\ is_name a = true) assets.
Proof. unfold assets. repeat constructor. Qed.

Lemma asset_path_assets a : a ∈ assets -> asset_path a = ["assets"; a].
Proof.
  intros Ha. pose proof assets_plain as HF.
  rewrite Forall_forall in HF. destruct (HF a Ha) as [H1 H2].
  by apply resolve_asset_file.
Qed.

Lemma assets_NoDup : NoDup assets.
Proof. apply (bool_decide_unpack _). vm_compute. reflexivity. Qed.

Lemma asset_paths_NoDup : NoDup (asset_path <$> assets).
Proof. apply (bool_decide_unpack _). vm_compute. reflexivity. Qed.

(** ** One step at a time *)

Lemma after_after w m1 l1 m2 l2 :
  after (after w m1 l1) m2 l2 = after w m2 (l1 ++ l2).
Proof. unfold after. simpl. by rewrite <- app_assoc. Qed.

Lemma after_nil w : after w (fs w) [] = w.
Proof. destruct w. unfold after. simpl. by rewrite app_nil_r. Qed.

Lemma console_app t1 t2 : console (t1 ++ t2) = console t1 ++ console t2.
Proof. apply omap_app. Qed.

Lemma opened_app t1 t2 : opened (t1 ++ t2) = opened t1 ++ opened t2.
Proof. apply omap_app. Qed.

Lemma written_app t1 t2 : written (t1 ++ t2) = written t1 ++ written t2.
Proof. apply omap_app. Qed.

Section Steps.

Variable E : env.

Local Ltac run :=
  unfold bind, ret, raise, lift, get_fs, put_fs, emit, try_except,
    path_exists, path_isdir, after; simpl.

(** [os.makedirs('assets', exist_ok=True)], case by case. *)
Lemma makedirs_assets_eq w :
  makedirs E "assets" true w =
  match fs w !! ["assets"] with
  | Some Dir => (Ok tt, after w (fs w) [EvMkdir ["assets"]])
  | Some (File _) =>
      (Raise FileExistsError, after w (fs w) [EvMkdir ["assets"]])
  | None =>
      if mkdir_refused E ["assets"]
      then (Raise PermissionError, after w (fs w) [EvMkdir ["assets"]])
      else (Ok tt, after w (<[["assets"] := Dir]> (fs w))
                     [EvMkdir ["assets"]])
  end.
Proof.
  unfold makedirs. change (rev (resolve "assets")) with ["assets"].
  unfold makedirs_rev, mkdir_guarded, mkdir. run.
  destruct (fs w !! ["assets"]) as [[|d]|] eqn:Hl; simpl; rewrite ?Hl; try done.
  destruct (mkdir_refused E ["assets"]); simpl; rewrite ?Hl; done.
Qed.

Lemma writable_inv m p :
  writable E m p = true ->
  node_at m (parent p) = Some Dir /\
  node_at m p <> Some Dir /\
  open_refused E p = false.
Proof.
  unfold writable.
  destruct (node_at m (parent p)) as [[|?]|]; try done.
  destruct (node_at m p) as [[|?]|]; try done;
    destruct (open_refused E p); done.
Qed.

Lemma writable_nonempty m p : writable E m p = true -> p <> [].
Proof. intros H%writable_inv ->. by destruct H as (_ & H & _). Qed.

Lemma with_block_ok name d w :
  writable E (fs w) (resolve name) = true ->
  fits E (resolve name) (length d) = true ->
  with_block E name d w =
  (Ok tt, after w (<[resolve name := File d]> (fs w))
            (block_events (resolve name) d)).
Proof.
  unfold with_block, block_events, fits, with_, open_wb, write, close.
  generalize (resolve name). intros p Hw Hf.
  destruct (writable_inv _ _ Hw) as (Hpar & Hnd & Hr).
  run. rewrite Hpar, Hr.
  assert (Hgo : forall X (x y : X),
    match node_at (fs w) p with
    | Some Dir => x
    | _ => y
    end = y).
  { intros. by destruct (node_at (fs w) p) as [[|?]|]. }
  rewrite Hgo. simpl. rewrite lookup_insert_eq. simpl.
  rewrite insert_insert_eq.
  destruct (room E p) as [k|]; simpl.
  - destruct (k <? length d)%nat; [done|]. simpl.
    by rewrite <- !app_assoc.
  - by rewrite <- !app_assoc.
Qed.

Lemma with_block_full name d w k :
  writable E (fs w) (resolve name) = true ->
  room E (resolve name) = Some k ->
  (k < length d)%nat ->
  with_block E name d w =
  (Raise NoSpaceError,
   after w (<[resolve name := File (take k d)]> (fs w))
     (block_events (resolve name) d)).
Proof.
  unfold with_block, block_events, with_, open_wb, write, close.
  generalize (resolve name). intros p Hw Hk Hlt.
  destruct (writable_inv _ _ Hw) as (Hpar & Hnd & Hr).
  run. rewrite Hpar, Hr.
  assert (Hgo : forall X (x y : X),
    match node_at (fs w) p with
    | Some Dir => x
    | _ => y
    end = y).
  { intros. by destruct (node_at (fs w) p) as [[|?]|]. }
  rewrite Hgo. simpl. rewrite lookup_insert_eq. simpl.
  rewrite Hk. simpl.
  apply Nat.ltb_lt in Hlt. rewrite Hlt. simpl.
  rewrite insert_insert_eq. by rewrite <- !app_assoc.
Qed.

Lemma with_block_refused name d w :
  writable E (fs w) (resolve name) = false ->
  exists e, is_OSError e = true /\
    with_block E name d w = (Raise e, after w (fs w) [EvOpen (resolve name)]).
Proof.
  unfold with_block, writable, with_, open_wb.
  generalize (resolve name). intros p Hw. run.
  assert (Hex : forall e (w' : world),
    is_OSError e = true ->
    exists e', is_OSError e' = true /\
               (@Raise unit e, w') = (@Raise unit e', w')).
  { intros e w' He. by exists e. }
  destruct (node_at (fs w) (parent p)) as [[|?]|]; simpl;
    [|by apply Hex..].
  destruct (node_at (fs w) p) as [[|?]|]; simpl; [by apply Hex|..];
    destruct (open_refused E p); simpl in *; try done; by apply Hex.
Qed.

Lemma write_asset_unfold d a :
  write_asset E d a = (with_block E (asset_file a) d ;; print (created a)).
Proof. reflexivity. Qed.

Lemma write_asset_ok d a w :
  writable E (fs w) (asset_path a) = true ->
  fits E (asset_path a) (length d) = true ->
  write_asset E d a w =
  (Ok tt, after w (<[asset_path a := File d]> (fs w)) (write_events d a)).
Proof.
  intros Hw Hf. rewrite write_asset_unfold. unfold bind.
  unfold asset_path in *. rewrite (with_block_ok _ _ _ Hw Hf).
  unfold print, emit, after. simpl. by rewrite <- app_assoc.
Qed.

Lemma write_asset_full d a w k :
  writable E (fs w) (asset_path a) = true ->
  room E (asset_path a) = Some k ->
  (k < length d)%nat ->
  write_asset E d a w =
  (Raise NoSpaceError,
   after w (<[asset_path a := File (take k d)]> (fs w))
     (block_events (asset_path a) d)).
Proof.
  intros Hw Hk Hlt. rewrite write_asset_unfold. unfold bind.
  unfold asset_path in *. by rewrite (with_block_full _ _ _ _ Hw Hk Hlt).
Qed.

Lemma write_asset_refused d a w :
  writable E (fs w) (asset_path a) = false ->
  exists e, is_OSError e = true /\
    write_asset E d a w = (Raise e, after w (fs w) [EvOpen (asset_path a)]).
Proof.
  intros Hw. rewrite write_asset_unfold. unfold bind.
  unfold asset_path in *.
  destruct (with_block_refused _ d _ Hw) as (e & He & ->). eauto.
Qed.

(** Every way one iteration can end. *)
Lemma write_asset_cases d a w :
  let p := asset_path a in
  (writable E (fs w) p = true /\ fits E p (length d) = true /\
   write_asset E d a w =
     (Ok tt, after w (<[p := File d]> (fs w)) (write_events d a)))
  \/ (exists k, writable E (fs w) p = true /\ room E p = Some k /\
        (k < length d)%nat /\
        write_asset E d a w =
          (Raise NoSpaceError,
           after w (<[p := File (take k d)]> (fs w)) (block_events p d)))
  \/ (exists e, writable E (fs w) p = false /\
        write_asset E d a w = (Raise e, after w (fs w) [EvOpen p])).
Proof.
  intros p. destruct (writable E (fs w) p) eqn:Hw.
  - destruct (fits E p (length d)) eqn:Hf.
    + left. eauto using write_asset_ok.
    + right. left. unfold fits in Hf.
      destruct (room E p) as [k|] eqn:Hk; [|done].
      apply negb_false_iff, Nat.ltb_lt in Hf.
      exists k. eauto using write_asset_full.
  - right. right. destruct (write_asset_refused d a w Hw) as (e & _ & He).
    eauto.
Qed.

Lemma write_asset_ok_inv d a w w' :
  write_asset E d a w = (Ok tt, w') ->
  writable E (fs w) (asset_path a) = true /\
  fits E (asset_path a) (length d) = true /\
  w' = after w (<[asset_path a := File d]> (fs w)) (write_events d a).
Proof.
  intros H.
  destruct (write_asset_cases d a w)
    as [(Hw & Hf & Heq)|[(k & _ & _ & _ & Heq)|(e & _ & Heq)]];
    rewrite Heq in H; by simplify_eq.
Qed.

Lemma write_asset_raise_inv d a w e w' :
  write_asset E d a w = (Raise e, w') ->
  let p := asset_path a in
  (writable E (fs w) p = false /\ w' = after w (fs w) [EvOpen p])
  \/ (exists k, writable E (fs w) p = true /\ (k < length d)%nat /\
        w' = after w (<[p := File (take k d)]> (fs w)) (block_events p d)).
Proof.
  intros H p.
  destruct (write_asset_cases d a w)
    as [(Hw & Hf & Heq)|[(k & Hw & _ & Hk & Heq)|(e' & Hw & Heq)]];
    rewrite Heq in H; simplify_eq; [right|left]; eauto.
Qed.

End Steps.

(** ** The loop *)

Section Loop.

Context {A : Type} (body : A -> Py unit).

Lemma for_cons x l w :
  for_ (x :: l) body w =
  match body x w with
  | (Ok _, w1) => for_ l body w1
  | (Raise e, w1) => (Raise e, w1)
  end.
Proof. reflexivity. Qed.

Lemma for_app l1 l2 w :
  for_ (l1 ++ l2) body w =
  match for_ l1 body w with
  | (Ok _, w1) => for_ l2 body w1
  | (Raise e, w1) => (Raise e, w1)
  end.
Proof.
  revert w. induction l1 as [|x l1 IH]; intros w; [done|].
  simpl app. rewrite !for_cons.
  destruct (body x w) as [[[]|e] w1]; [apply IH|done].
Qed.

(** A loop that raises does so in some iteration [n], after [n]
    completed iterations, and runs nothing after it. *)
Lemma for_raise_inv l w e w' :
  for_ l body w = (Raise e, w') ->
  exists n x w1,
    l !! n = Some x /\
    for_ (take n l) body w = (Ok tt, w1) /\
    body x w1 = (Raise e, w').
Proof.
  revert w. induction l as [|x l IH]; intros w H; [done|].
  rewrite for_cons in H.
  destruct (body x w) as [[[]|e1] w1] eqn:Hx.
  - destruct (IH _ H) as (n & y & w2 & Hn & Hpre & Hy).
    exists (S n), y, w2. split_and!; [done| |done].
    change (take (S n) (x :: l)) with (x :: take n l).
    by rewrite for_cons, Hx.
  - simplify_eq. by exists 0%nat, x, w.
Qed.

Lemma for_raise l n x w w1 e w' :
  l !! n = Some x ->
  for_ (take n l) body w = (Ok tt, w1) ->
  body x w1 = (Raise e, w') ->
  for_ l body w = (Raise e, w').
Proof.
  intros Hn Hpre Hx.
  rewrite <- (take_drop_middle l n x Hn), for_app, Hpre, for_cons.
  by rewrite Hx.
Qed.

End Loop.

(** ** Whole runs *)

Lemma console_loop_events d l : console (loop_events d l) = created <$> l.
Proof.
  induction l as [|a l IH]; [done|].
  unfold loop_events in *. rewrite !fmap_cons. cbn [concat].
  unfold write_events at 1. cbn. by f_equal.
Qed.

Lemma opened_loop_events d l : opened (loop_events d l) = asset_path <$> l.
Proof.
  induction l as [|a l IH]; [done|].
  unfold loop_events in *. rewrite !fmap_cons. cbn [concat].
  unfold write_events at 1. cbn. by f_equal.
Qed.

Lemma written_loop_events d l : written (loop_events d l) = asset_path <$> l.
Proof.
  induction l as [|a l IH]; [done|].
  unfold loop_events in *. rewrite !fmap_cons. cbn [concat].
  unfold write_events at 1. cbn. by f_equal.
Qed.

Lemma store_all_lookup_ne d l m q :
  q ∉ asset_path <$> l -> store_all d l m !! q = m !! q.
Proof.
  revert m. induction l as [|a l IH]; intros m Hq; [done|].
  rewrite fmap_cons, not_elem_of_cons in Hq. destruct Hq as [Hne Hq].
  simpl. rewrite (IH _ Hq). by rewrite lookup_insert_ne.
Qed.

Lemma store_all_lookup_path d l m q :
  q ∈ asset_path <$> l -> store_all d l m !! q = Some (File d).
Proof.
  revert m. induction l as [|b l IH]; intros m Hq; [by apply elem_of_nil in Hq|].
  simpl. destruct (decide (q ∈ asset_path <$> l)) as [Hin|Hnin]; [by apply IH|].
  rewrite (store_all_lookup_ne _ _ _ _ Hnin).
  rewrite fmap_cons in Hq. apply elem_of_cons in Hq as [->|Hq]; [|done].
  apply lookup_insert_eq.
Qed.

Lemma store_all_lookup d l m a :
  a ∈ l -> store_all d l m !! asset_path a = Some (File d).
Proof. intros Ha. by apply store_all_lookup_path, list_elem_of_fmap_2. Qed.

(** Storing what is already there changes nothing. *)
Lemma store_all_id d l m :
  (forall a, a ∈ l -> m !! asset_path a = Some (File d)) ->
  store_all d l m = m.
Proof.
  revert m. induction l as [|a l IH]; intros m H; [done|].
  simpl. rewrite insert_id by (apply H; left). apply IH.
  intros b Hb. apply H. by right.
Qed.

Section Runs.

Variable E : env.

Lemma for_write_ok_inv d l w w' :
  for_ l (write_asset E d) w = (Ok tt, w') ->
  w' = after w (store_all d l (fs w)) (loop_events d l) /\
  Forall (fun a => open_refused E (asset_path a) = false /\
                   fits E (asset_path a) (length d) = true) l.
Proof.
  revert w. induction l as [|a l IH]; intros w H.
  - assert (w' = w) as -> by (unfold for_, ret in H; congruence).
    split; [|done]. symmetry. apply after_nil.
  - rewrite for_cons in H.
    destruct (write_asset E d a w) as [[[]|e] w1] eqn:Ha; [|done].
    apply write_asset_ok_inv in Ha as (Hw & Hf & ->).
    apply IH in H as [-> HF]. split.
    + by rewrite after_after.
    + constructor; [|done]. by apply writable_inv in Hw as (_ & _ & ?).
Qed.

(** Inside an existing directory ["assets"], the loop goes through as
    soon as no target is a directory, no [open] is refused and each
    file may take the data. *)
Lemma for_write_ok d l w :
  fs w !! ["assets"] = Some Dir ->
  Forall (fun a => asset_path a = ["assets"; a] /\
                   fs w !! ["assets"; a] <> Some Dir /\
                   open_refused E ["assets"; a] = false /\
                   fits E ["assets"; a] (length d) = true) l ->
  for_ l (write_asset E d) w =
  (Ok tt, after w (store_all d l (fs w)) (loop_events d l)).
Proof.
  revert w. induction l as [|a l IH]; intros w Hdir HF.
  - unfold for_, ret. f_equal. symmetry. apply after_nil.
  - apply Forall_cons in HF as [(Hp & Hnd & Hr & Hf) HF].
    rewrite for_cons, write_asset_ok; rewrite ?Hp; try done.
    + rewrite IH.
      * rewrite after_after. unfold store_all, loop_events.
        rewrite fmap_cons. cbn [foldl concat after fs]. by rewrite Hp.
      * simpl. by rewrite lookup_insert_ne.
      * eapply Forall_impl; [exact HF|]. simpl.
        intros b (Hb & Hbd & Hbr & Hbf). split_and!; try done.
        rewrite lookup_insert. case_decide; [done|done].
    + unfold writable. simpl. rewrite Hdir.
      destruct (fs w !! ["assets"; a]) as [[|?]|]; try done;
        by rewrite Hr.
Qed.

Lemma create_assets_unfold w :
  create_assets E w =
  match makedirs E "assets" true w with
  | (Ok _, w0) =>
      match for_ assets (write_asset E payload) w0 with
      | (Ok _, w1) => (Ok tt, after w1 (fs w1) [EvPrint success_line])
      | (Raise e, w1) => (Raise e, w1)
      end
  | (Raise e, w0) => (Raise e, w0)
  end.
Proof.
  unfold create_assets, bind, lift. rewrite b64decode_green_pixel.
  destruct (makedirs E "assets" true w) as [[[]|e] w0]; [|done].
  by destruct (for_ assets (write_asset E payload) w0) as [[[]|e] w1].
Qed.

End Runs.

Section RunFacts.

Variable E : env.

(** A run that returns normally: what it needed and what it left. *)
Lemma create_assets_ok_inv w w' :
  create_assets E w = (Ok tt, w') ->
  w' = after w (store_all payload assets (<[["assets"] := Dir]> (fs w)))
         (EvMkdir ["assets"] :: loop_events payload assets
            ++ [EvPrint success_line]) /\
  (fs w !! ["assets"] = Some Dir \/
   fs w !! ["assets"] = None /\ mkdir_refused E ["assets"] = false) /\
  Forall (fun a => open_refused E (asset_path a) = false /\
                   fits E (asset_path a) (length payload) = true) assets.
Proof.
  rewrite create_assets_unfold, makedirs_assets_eq. intros H.
  assert (Hloop : forall m0,
    match for_ assets (write_asset E payload)
            (after w m0 [EvMkdir ["assets"]]) with
    | (Ok _, w1) => (Ok tt, after w1 (fs w1) [EvPrint success_line])
    | (Raise e, w1) => (Raise e, w1)
    end = (Ok tt, w') ->
    w' = after w (store_all payload assets m0)
           (EvMkdir ["assets"] :: loop_events payload assets
              ++ [EvPrint success_line]) /\
    Forall (fun a => open_refused E (asset_path a) = false /\
                     fits E (asset_path a) (length payload) = true) assets).
  { intros m0 H0.
    destruct (for_ assets (write_asset E payload) _)
      as [[[]|e] w1] eqn:Hfor; [|done].
    apply for_write_ok_inv in Hfor as [-> HF]. split; [|done].
    simplify_eq. by rewrite !after_after. }
  destruct (fs w !! ["assets"]) as [[|d]|] eqn:Hl; [|done|].
  - apply Hloop in H as [-> HF]. split_and!; [|by left|done].
    by rewrite insert_id.
  - destruct (mkdir_refused E ["assets"]) eqn:Hr; [done|].
    apply Hloop in H as [-> HF]. split_and!; [done|by right|done].
Qed.

(** The conditions under which a run returns normally. *)
Lemma create_assets_ok w :
  (fs w !! ["assets"] = Some Dir \/
   fs w !! ["assets"] = None /\ mkdir_refused E ["assets"] = false) ->
  Forall (fun a => fs w !! ["assets"; a] <> Some Dir /\
                   open_refused E ["assets"; a] = false /\
                   fits E ["assets"; a] (length payload) = true) assets ->
  create_assets E w =
  (Ok tt,
   after w (store_all payload assets (<[["assets"] := Dir]> (fs w)))
     (EvMkdir ["assets"] :: loop_events payload assets
        ++ [EvPrint success_line])).
Proof.
  intros Hdir HF.
  rewrite create_assets_unfold, makedirs_assets_eq.
  assert (Hmk :
    match fs w !! ["assets"] with
    | Some Dir => (Ok tt, after w (fs w) [EvMkdir ["assets"]])
    | Some (File _) =>
        (Raise FileExistsError, after w (fs w) [EvMkdir ["assets"]])
    | None =>
        if mkdir_refused E ["assets"]
        then (Raise PermissionError, after w (fs w) [EvMkdir ["assets"]])
        else (Ok tt, after w (<[["assets"] := Dir]> (fs w))
                       [EvMkdir ["assets"]])
    end = (Ok tt, after w (<[["assets"] := Dir]> (fs w))
                    [EvMkdir ["assets"]])).
  { destruct Hdir as [Hd|[Hd Hr]]; rewrite Hd; [|by rewrite Hr].
    by rewrite insert_id. }
  rewrite Hmk. rewrite for_write_ok.
  - by rewrite !after_after.
  - simpl. apply lookup_insert_eq.
  - pose proof assets_plain as HP.
    rewrite Forall_forall in HP, HF. apply Forall_forall.
    intros a Ha. destruct (HF a Ha) as (Hnd & Hr & Hf).
    destruct (HP a Ha) as [Hs Hn]. split_and!; try done.
    + by apply resolve_asset_file.
    + simpl. by rewrite lookup_insert_ne.
Qed.

End RunFacts.

(** ** Directory creation in general *)

Lemma prefixes_snoc (p : path) t :
  prefixes (p ++ [t]) = prefixes p ++ [p ++ [t]].
Proof.
  unfold prefixes. rewrite length_app, Nat.add_1_r, seq_S, map_app. simpl.
  f_equal.
  - apply map_ext_in. intros n Hn%in_seq. rewrite take_app_le by lia. done.
  - by rewrite take_ge by (rewrite length_app; simpl; lia).
Qed.

Lemma parent_snoc (p : path) t : parent (p ++ [t]) = p.
Proof. apply removelast_last. Qed.

Lemma prefixes_length (p q : path) :
  q ∈ prefixes p -> (0 < length q <= length p)%nat.
Proof.
  unfold prefixes. intros Hq. apply list_elem_of_In, in_map_iff in Hq.
  destruct Hq as (n & <- & Hn%in_seq). rewrite length_take. lia.
Qed.

(** In a well-formed file system the ancestors of a directory are
    directories. *)
Lemma well_formed_prefixes m (p : path) :
  well_formed m -> m !! p = Some Dir ->
  Forall (fun q => m !! q = Some Dir) (prefixes p).
Proof.
  intros Hwf. induction p as [|t p IH] using rev_ind; intros Hp; [constructor|].
  rewrite prefixes_snoc. apply Forall_app. split; [|by repeat constructor].
  pose proof (Hwf _ _ Hp) as Hpar. simpl in Hpar.
  rewrite parent_snoc in Hpar. destruct p as [|s p]; [constructor|].
  by apply IH.
Qed.

Lemma parent_ne (p : path) : p <> [] -> parent p <> p.
Proof.
  intros Hp Heq. destruct (exists_last Hp) as (q & t & ->).
  rewrite parent_snoc in Heq.
  apply (f_equal length) in Heq. rewrite length_app in Heq. simpl in Heq. lia.
Qed.

Lemma well_formed_insert_dir m (p : path) :
  well_formed m -> p <> [] ->
  node_at m (parent p) = Some Dir ->
  well_formed (<[p := Dir]> m).
Proof.
  intros Hwf Hne Hpar. unfold well_formed.
  assert (Hup : forall q, node_at m q = Some Dir ->
                          node_at (<[p := Dir]> m) q = Some Dir).
  { intros [|s q]; [done|]. simpl. intros Hq.
    rewrite lookup_insert. by case_decide. }
  intros q x Hq. simpl. apply Hup.
  apply lookup_insert_Some in Hq as [[<- _]|[_ Hq]]; [done|].
  exact (Hwf _ _ Hq).
Qed.

Section Makedirs.

Variable E : env.

Lemma makedirs_rev_cons t rh :
  makedirs_rev E (t :: rh) true =
  ((match rh with
    | [] => ret tt
    | _ =>
        there <- path_exists (rev rh) ;;
        if there then ret tt
        else try_except (makedirs_rev E rh true)
               is_FileExistsError (fun _ => ret tt)
    end) ;; ensure_dir E (rev (t :: rh))).
Proof. reflexivity. Qed.

Lemma ensure_dir_present p w :
  p <> [] ->
  node_at (fs w) (parent p) = Some Dir ->
  fs w !! p = Some Dir ->
  ensure_dir E p w = (Ok tt, after w (fs w) [EvMkdir p]).
Proof.
  intros Hne Hpar Hp. unfold ensure_dir, mkdir_guarded, try_except, mkdir,
    bind, emit,
    get_fs, path_isdir, ret, raise, after. simpl.
  rewrite Hpar. destruct p as [|s p]; [done|]. simpl. rewrite Hp. simpl.
  by rewrite Hp.
Qed.

Lemma ensure_dir_absent p w :
  p <> [] ->
  node_at (fs w) (parent p) = Some Dir ->
  fs w !! p = None ->
  mkdir_refused E p = false ->
  ensure_dir E p w = (Ok tt, after w (<[p := Dir]> (fs w)) [EvMkdir p]).
Proof.
  intros Hne Hpar Hp Hr. unfold ensure_dir, mkdir_guarded, try_except,
    mkdir, bind, emit,
    get_fs, put_fs, path_isdir, ret, raise, after. simpl.
  rewrite Hpar. destruct p as [|s p]; [done|]. simpl. rewrite Hp, Hr. done.
Qed.

End Makedirs.

Lemma node_at_ne m (p : path) : p <> [] -> node_at m p = m !! p.
Proof. by destruct p. Qed.

Lemma prefixes_self (p : path) : p <> [] -> p ∈ prefixes p.
Proof.
  intros Hp. destruct (exists_last Hp) as (q & t & ->).
  rewrite prefixes_snoc. apply elem_of_app. right. by left.
Qed.

Lemma prefixes_snoc_not_in (p : path) t : p ++ [t] ∉ prefixes p.
Proof.
  intros H%prefixes_length. rewrite length_app in H. simpl in H. lia.
Qed.

Section MakedirsRec.

Variable E : env.

Lemma ensure_dir_step w w1 h t :
  well_formed (fs w) ->
  ensured w h w1 ->
  node_at (fs w1) h = Some Dir ->
  creatable E (fs w) (h ++ [t]) = true ->
  exists w', ensure_dir E (h ++ [t]) w1 = (Ok tt, w') /\
             ensured w (h ++ [t]) w'.
Proof.
  intros Hwf (Hwf1 & Hdirs & Hsame) Hh Hc.
  set (p := h ++ [t]) in *.
  assert (Hne : p <> []) by (subst p; by destruct h).
  assert (Hpar : node_at (fs w1) (parent p) = Some Dir)
    by (subst p; by rewrite parent_snoc).
  assert (Hp1 : fs w1 !! p = fs w !! p).
  { apply Hsame. right. apply prefixes_snoc_not_in. }
  unfold creatable in Hc. rewrite <- Hp1 in Hc.
  destruct (fs w1 !! p) as [[|d]|] eqn:Hp; [|done|].
  - exists (after w1 (fs w1) [EvMkdir p]).
    split; [by apply ensure_dir_present|].
    unfold ensured, after. cbn [fs]. split_and!; [done| |].
    + subst p. rewrite prefixes_snoc. apply Forall_app.
      split; [done|by repeat constructor].
    + intros q [Hq|Hq]; apply Hsame; [by left|right].
      subst p. rewrite prefixes_snoc in Hq.
      intros Hq'. apply Hq, elem_of_app. by left.
  - apply negb_true_iff in Hc.
    exists (after w1 (<[p := Dir]> (fs w1)) [EvMkdir p]).
    split; [by apply ensure_dir_absent|].
    unfold ensured, after. cbn [fs]. split_and!.
    + by apply well_formed_insert_dir.
    + subst p. rewrite prefixes_snoc. apply Forall_app. split.
      * rewrite Forall_forall in Hdirs |- *. intros q Hq.
        rewrite lookup_insert_ne; [by apply Hdirs|].
        intros <-. by apply prefixes_snoc_not_in in Hq.
      * repeat constructor. apply lookup_insert_eq.
    + intros q Hq. destruct (decide (p = q)) as [<-|Hpq].
      * exfalso. destruct Hq as [[x Hx]|Hq].
        -- rewrite <- Hp1 in Hx. done.
        -- by apply Hq, prefixes_self.
      * rewrite lookup_insert_ne by done. apply Hsame.
        destruct Hq as [Hq|Hq]; [by left|right].
        subst p. rewrite prefixes_snoc in Hq.
      intros Hq'. apply Hq, elem_of_app. by left.
Qed.

Lemma makedirs_rev_ok rp w :
  rp <> [] ->
  well_formed (fs w) ->
  Forall (fun q => creatable E (fs w) q = true) (prefixes (rev rp)) ->
  exists w', makedirs_rev E rp true w = (Ok tt, w') /\
             ensured w (rev rp) w'.
Proof.
  revert w. induction rp as [|t rh IH]; intros w Hne Hwf Hc; [done|].
  rewrite makedirs_rev_cons. simpl rev in *.
  rewrite prefixes_snoc in Hc. apply Forall_app in Hc as [Hch Hcp].
  rewrite Forall_singleton in Hcp.
  assert (Hhead : exists w1,
    (match rh with
     | [] => ret tt
     | _ =>
         there <- path_exists (rev rh) ;;
         if there then ret tt
         else try_except (makedirs_rev E rh true)
                is_FileExistsError (fun _ => ret tt)
     end) w = (Ok tt, w1) /\
    ensured w (rev rh) w1 /\ node_at (fs w1) (rev rh) = Some Dir).
  { destruct rh as [|s rh'].
    - exists w. split; [done|]. split; [|done].
      unfold ensured. split_and!; [done|constructor|done].
    - set (h := rev (s :: rh')) in *.
      assert (Hh : h <> []) by (subst h; simpl; by destruct (rev rh')).
      pose proof (prefixes_self h Hh) as Hin.
      rewrite Forall_forall in Hch. pose proof (Hch _ Hin) as Hhc.
      unfold creatable in Hhc. cbv [bind path_exists get_fs ret].
      rewrite (node_at_ne _ _ Hh).
      destruct (fs w !! h) as [[|d]|] eqn:Hl; [|done|].
      + exists w. split; [done|]. rewrite (node_at_ne _ _ Hh).
        split; [|done]. unfold ensured. split_and!; [done| |done].
        by apply well_formed_prefixes.
      + destruct (IH w) as (w1 & Hrun & Hens); [done|done| |].
        { by apply Forall_forall. }
        exists w1. unfold try_except. rewrite Hrun. split; [done|].
        split; [done|]. rewrite (node_at_ne _ _ Hh).
        destruct Hens as (_ & Hd & _). rewrite Forall_forall in Hd.
        by apply Hd. }
  destruct Hhead as (w1 & Hrun & Hens & Hh).
  destruct (ensure_dir_step w w1 (rev rh) t Hwf Hens Hh Hcp)
    as (w' & Hrun' & Hens').
  exists w'. split; [|done]. unfold bind at 1. by rewrite Hrun.
Qed.

End MakedirsRec.

Lemma NoDup_not_in_take {A} (l : list A) n x :
  NoDup l -> l !! n = Some x -> x ∉ take n l.
Proof.
  intros Hnd Hn (i & Hi & Hlt)%elem_of_take.
  pose proof (NoDup_lookup _ _ _ _ Hnd Hi Hn). lia.
Qed.

Lemma earlier_asset_path_ne n a b :
  assets !! n = Some a -> b ∈ take n assets -> asset_path b <> asset_path a.
Proof.
  intros Hn Hb Heq.
  apply (NoDup_not_in_take (asset_path <$> assets) n (asset_path a)).
  - apply asset_paths_NoDup.
  - by rewrite list_lookup_fmap, Hn.
  - rewrite <- fmap_take, <- Heq. by apply list_elem_of_fmap_2.
Qed.

Lemma makedirs_assets_ok_inv E w w0 :
  makedirs E "assets" true w = (Ok tt, w0) ->
  w0 = after w (<[["assets"] := Dir]> (fs w)) [EvMkdir ["assets"]].
Proof.
  rewrite makedirs_assets_eq.
  destruct (fs w !! ["assets"]) as [[|d]|] eqn:Hl; [|done|].
  - intros. simplify_eq. by rewrite insert_id.
  - destruct (mkdir_refused E ["assets"]); [done|]. intros. by simplify_eq.
Qed.

Lemma success_line_not_created (l : list string) :
  success_line ∉ created <$> l.
Proof. intros (a & Ha & _)%list_elem_of_fmap. discriminate Ha. Qed.

(** What a loop that fails in iteration [n] leaves behind. *)
Lemma loop_failure_shape E w0 n a w1 e w2 :
  assets !! n = Some a ->
  for_ (take n assets) (write_asset E payload) w0 = (Ok tt, w1) ->
  write_asset E payload a w1 = (Raise e, w2) ->
  opened (trace w2) = opened (trace w0) ++ (asset_path <$> take (S n) assets) /\
  console (trace w2) = console (trace w0) ++ (created <$> take n assets) /\
  (exists k, (n <= k <= S n)%nat /\
     written (trace w2) = written (trace w0) ++ (asset_path <$> take k assets)) /\
  (forall b, b ∈ take n assets ->
     fs w2 !! asset_path b = Some (File payload)).
Proof.
  intros Hn Hpre Hfail.
  apply for_write_ok_inv in Hpre as [-> _].
  rewrite (take_S_r _ _ _ Hn), fmap_app.
  change (asset_path <$> [a]) with [asset_path a].
  assert (Hev1 : forall t,
    opened (t ++ loop_events payload (take n assets)
              ++ [EvOpen (asset_path a)]) =
      opened t ++ (asset_path <$> take n assets) ++ [asset_path a] /\
    console (t ++ loop_events payload (take n assets)
               ++ [EvOpen (asset_path a)]) =
      console t ++ (created <$> take n assets) /\
    written (t ++ loop_events payload (take n assets)
               ++ [EvOpen (asset_path a)]) =
      written t ++ (asset_path <$> take n assets)).
  { intros t.
    rewrite !opened_app, !console_app, !written_app,
      opened_loop_events, console_loop_events, written_loop_events.
    cbn [opened console written omap]. by rewrite !app_nil_r. }
  assert (Hev2 : forall t,
    opened (t ++ loop_events payload (take n assets)
              ++ block_events (asset_path a) payload) =
      opened t ++ (asset_path <$> take n assets) ++ [asset_path a] /\
    console (t ++ loop_events payload (take n assets)
               ++ block_events (asset_path a) payload) =
      console t ++ (created <$> take n assets) /\
    written (t ++ loop_events payload (take n assets)
               ++ block_events (asset_path a) payload) =
      written t ++ (asset_path <$> take n assets) ++ [asset_path a]).
  { intros t.
    rewrite !opened_app, !console_app, !written_app,
      opened_loop_events, console_loop_events, written_loop_events.
    unfold block_events. cbn [opened console written omap].
    by rewrite !app_nil_r. }
  apply write_asset_raise_inv in Hfail as [[_ ->]|(k & _ & _ & ->)];
    rewrite after_after; unfold after; cbn [trace fs].
  - destruct (Hev1 (trace w0)) as (-> & -> & Hwr).
    split_and!; [done|done| |].
    + exists n. split; [lia|done].
    + intros b Hb. by apply store_all_lookup.
  - destruct (Hev2 (trace w0)) as (-> & -> & Hwr).
    split_and!; [done|done| |].
    + exists (S n). split; [lia|].
      by rewrite Hwr, (take_S_r _ _ _ Hn), fmap_app.
    + intros b Hb.
      rewrite lookup_insert_ne by (symmetry; by eapply earlier_asset_path_ne).
      by apply store_all_lookup.
Qed.

Lemma assets_dir_not_asset_path : ["assets"] ∉ asset_path <$> assets.
Proof. apply (bool_decide_unpack _). vm_compute. reflexivity. Qed.

(** After a run that returned normally the directory and the four files
    are in place. *)
Lemma fs_after_success E w w' :
  create_assets E w = (Ok tt, w') ->
  fs w' !! ["assets"] = Some Dir /\
  (forall a, a ∈ assets -> fs w' !! asset_path a = Some (File payload)).
Proof.
  intros H. apply create_assets_ok_inv in H as (-> & _ & _).
  unfold after. cbn [fs]. split.
  - rewrite store_all_lookup_ne by apply assets_dir_not_asset_path.
    apply lookup_insert_eq.
  - intros a Ha. by apply store_all_lookup.
Qed.

(** Whatever way a run ends, it has opened the paths of the first [n]
    assets and written to those of the first [k], in list order. *)
Lemma run_shape E w r w' :
  create_assets E w = (r, w') ->
  exists n k, (k <= n)%nat /\
    opened (trace w') = opened (trace w) ++ (asset_path <$> take n assets) /\
    written (trace w') = written (trace w) ++ (asset_path <$> take k assets).
Proof.
  intros H. destruct r as [[]|e].
  - apply create_assets_ok_inv in H as (-> & _ & _).
    exists (length assets), (length assets). split; [done|].
    rewrite firstn_all. unfold after. cbn [trace].
    change (EvMkdir ["assets"] :: loop_events payload assets
              ++ [EvPrint success_line])
      with ([EvMkdir ["assets"]] ++ loop_events payload assets
              ++ [EvPrint success_line]).
    rewrite !opened_app, !written_app, opened_loop_events,
      written_loop_events.
    cbn [opened written omap]. by rewrite !app_nil_r.
  - rewrite create_assets_unfold in H.
    destruct (makedirs E "assets" true w) as [[[]|e0] w0] eqn:Hmk.
    + pose proof (makedirs_assets_ok_inv _ _ _ Hmk) as Hw0.
      destruct (for_ assets (write_asset E payload) w0)
        as [[[]|e1] w1] eqn:Hfor; [done|]. simplify_eq.
      apply for_raise_inv in Hfor as (n & a & w1 & Hn & Hpre & Hfail).
      destruct (loop_failure_shape _ _ _ _ _ _ _ Hn Hpre Hfail)
        as (Ho & _ & (k & Hk & Hwr) & _).
      exists (S n), k. split; [lia|].
      rewrite Ho, Hwr. unfold after. cbn [trace].
      rewrite opened_app, written_app. cbn [opened written omap].
      by rewrite !app_nil_r.
    + simplify_eq. rewrite makedirs_assets_eq in Hmk.
      assert (w' = after w (fs w) [EvMkdir ["assets"]]) as ->.
      { destruct (fs w !! ["assets"]) as [[|d]|]; [done|by simplify_eq|].
        destruct (mkdir_refused E ["assets"]); [by simplify_eq|done]. }
      exists 0%nat, 0%nat. split; [done|].
      unfold after. cbn [trace]. rewrite opened_app, written_app.
      cbn [opened written omap take fmap list_fmap]. done.
Qed.

(** * The specification's claims *)

(** C1.  After a run that returns normally, every one of the four names
    has a file [assets/<name>] whose bytes are exactly what decoding the
    embedded constant gives. *)
Theorem assets_hold_decoded_constant E w w' :
  create_assets E w = (Ok tt, w') ->
  exists data,
    base64.b64decode green_pixel = Ok data /\
    forall name, name ∈ assets ->
      fs w' !! resolve ("assets/" +:+ name) = Some (File data).
Proof.
  intros H. apply create_assets_ok_inv in H as (-> & _ & _).
  exists payload. split; [apply b64decode_green_pixel|].
  intros name Hn. simpl. by apply (store_all_lookup payload assets).
Qed.

Lemma assets_hold_decoded_constant_witness :
  exists data,
    base64.b64decode green_pixel = Ok data /\
    forall name, name ∈ assets ->
      fs (snd (create_assets quiet (start ∅)))
        !! resolve ("assets/" +:+ name) = Some (File data).
Proof.
  apply (assets_hold_decoded_constant quiet (start ∅)).
  vm_compute. reflexivity.
Defined.

(** C2 as stated (67 bytes) does not hold: the constant has 96
    characters, two of them padding, and decodes to 70 bytes. *)
Lemma decoded_length_is_not_67 :
  ~ exists data,
      base64.b64decode green_pixel = Ok data /\ length data = 67%nat.
Proof.
  intros (data & Hd & Hlen). rewrite b64decode_green_pixel in Hd.
  by simplify_eq.
Qed.

(** C2, amended.  Decoding the embedded constant succeeds and yields a
    byte sequence of length exactly 70. *)
Theorem decoded_length_is_70 :
  exists data,
    base64.b64decode green_pixel = Ok data /\ length data = 70%nat.
Proof. exists payload. split; [apply b64decode_green_pixel|reflexivity]. Qed.

(** C3.  On a run in which every write succeeds the console shows one
    [Created <name>] line per asset, in list order, then the final line;
    each line follows the close of its own file and precedes the next
    [open]. *)
Theorem console_of_successful_run E w w' :
  create_assets E w = (Ok tt, w') ->
  console (trace w') =
    console (trace w) ++
    ["Created icon.png"; "Created splash.png"; "Created adaptive-icon.png";
     "Created favicon.png"; "All placeholder assets created successfully!"] /\
  trace w' =
    trace w ++
    [EvMkdir ["assets"];
     EvOpen ["assets"; "icon.png"];
     EvWrite ["assets"; "icon.png"] payload;
     EvClose ["assets"; "icon.png"];
     EvPrint "Created icon.png";
     EvOpen ["assets"; "splash.png"];
     EvWrite ["assets"; "splash.png"] payload;
     EvClose ["assets"; "splash.png"];
     EvPrint "Created splash.png";
     EvOpen ["assets"; "adaptive-icon.png"];
     EvWrite ["assets"; "adaptive-icon.png"] payload;
     EvClose ["assets"; "adaptive-icon.png"];
     EvPrint "Created adaptive-icon.png";
     EvOpen ["assets"; "favicon.png"];
     EvWrite ["assets"; "favicon.png"] payload;
     EvClose ["assets"; "favicon.png"];
     EvPrint "Created favicon.png";
     EvPrint "All placeholder assets created successfully!"].
Proof.
  intros H. apply create_assets_ok_inv in H as (-> & _ & _).
  unfold after. cbn [trace]. split; [|reflexivity].
  rewrite console_app. f_equal.
Qed.

Lemma console_of_successful_run_witness :
  console (trace (snd (create_assets quiet (start ∅)))) =
    ["Created icon.png"; "Created splash.png"; "Created adaptive-icon.png";
     "Created favicon.png"; "All placeholder assets created successfully!"].
Proof.
  refine (proj1 (console_of_successful_run quiet (start ∅) _ _)).
  vm_compute. reflexivity.
Defined.

(** C4.  If creating the directory fails, the run ends with that error,
    the file system is as it was, and nothing was opened, written or
    printed: the only event is the [mkdir] attempt. *)
Theorem failed_makedirs_writes_nothing E w e w0 :
  makedirs E "assets" true w = (Raise e, w0) ->
  create_assets E w = (Raise e, w0) /\
  fs w0 = fs w /\
  trace w0 = trace w ++ [EvMkdir ["assets"]] /\
  opened (trace w0) = opened (trace w) /\
  written (trace w0) = written (trace w) /\
  console (trace w0) = console (trace w).
Proof.
  intros H. split; [by rewrite create_assets_unfold, H|].
  rewrite makedirs_assets_eq in H.
  assert (w0 = after w (fs w) [EvMkdir ["assets"]]) as ->.
  { destruct (fs w !! ["assets"]) as [[|d]|]; [done|by simplify_eq|].
    destruct (mkdir_refused E ["assets"]); [by simplify_eq|done]. }
  unfold after. cbn [fs trace].
  rewrite opened_app, written_app, console_app. simpl.
  by rewrite !app_nil_r.
Qed.

Lemma failed_makedirs_writes_nothing_witness :
  create_assets quiet (start blocked) =
    (Raise FileExistsError,
     {| fs := blocked; trace := [EvMkdir ["assets"]] |}) /\
  fs {| fs := blocked; trace := [EvMkdir ["assets"]] |} = fs (start blocked).
Proof.
  pose proof (failed_makedirs_writes_nothing quiet (start blocked)
                FileExistsError
                {| fs := blocked; trace := [EvMkdir ["assets"]] |}) as H.
  destruct H as (H1 & H2 & _); [vm_compute; reflexivity|].
  split; [exact H1|exact H2].
Defined.

(** C5.  If the write for the asset at position [n] fails, the run ends
    with that error: no later file is opened, the final line is not
    printed, the [n] earlier files hold the payload and their
    [Created] lines are on the console. *)
Theorem failed_write_keeps_earlier_files E w w0 n a w1 e w2 :
  makedirs E "assets" true w = (Ok tt, w0) ->
  assets !! n = Some a ->
  for_ (take n assets) (write_asset E payload) w0 = (Ok tt, w1) ->
  write_asset E payload a w1 = (Raise e, w2) ->
  create_assets E w = (Raise e, w2) /\
  opened (trace w2) = opened (trace w) ++ (asset_path <$> take (S n) assets) /\
  console (trace w2) = console (trace w) ++ (created <$> take n assets) /\
  (success_line ∉ created <$> take n assets) /\
  (forall b, b ∈ take n assets ->
     fs w2 !! asset_path b = Some (File payload)).
Proof.
  intros Hmk Hn Hpre Hfail. split.
  { rewrite create_assets_unfold, Hmk.
    by rewrite (for_raise _ _ _ _ _ _ _ _ Hn Hpre Hfail). }
  destruct (loop_failure_shape _ _ _ _ _ _ _ Hn Hpre Hfail)
    as (Ho & Hc & _ & Hfiles).
  apply makedirs_assets_ok_inv in Hmk as ->.
  unfold after in Ho, Hc. cbn [trace] in Ho, Hc.
  rewrite opened_app in Ho. rewrite console_app in Hc.
  simpl in Ho, Hc. rewrite app_nil_r in Ho, Hc.
  split_and!; [done|done|apply success_line_not_created|done].
Qed.

Lemma failed_write_keeps_earlier_files_witness :
  create_assets tight (start ∅) =
    (Raise NoSpaceError,
     snd (write_asset tight payload "splash.png"
            (snd (for_ ["icon.png"] (write_asset tight payload)
                    (snd (makedirs tight "assets" true (start ∅))))))) /\
  console (trace (snd (create_assets tight (start ∅)))) = ["Created icon.png"].
Proof.
  set (w0 := snd (makedirs tight "assets" true (start ∅))).
  set (w1 := snd (for_ ["icon.png"] (write_asset tight payload) w0)).
  set (w2 := snd (write_asset tight payload "splash.png" w1)).
  destruct (failed_write_keeps_earlier_files tight (start ∅) w0 1
              "splash.png" w1 NoSpaceError w2) as (H1 & _ & H3 & _);
    [vm_compute; reflexivity..|].
  split; [exact H1|]. rewrite H1. exact H3.
Defined.

(** C6.  A second run started from the state the first run left goes
    through under the same conditions, and any second run that goes
    through leaves the file system exactly as the first run left it: each
    of the four files is overwritten with the bytes it already had. *)
Theorem second_run_leaves_same_bytes E w w1 :
  create_assets E w = (Ok tt, w1) ->
  (exists w2, create_assets E w1 = (Ok tt, w2)) /\
  (forall E' w2,
     create_assets E' w1 = (Ok tt, w2) ->
     fs w2 = fs w1 /\
     forall a, a ∈ assets ->
       fs w2 !! asset_path a = Some (File payload) /\
       fs w1 !! asset_path a = Some (File payload)).
Proof.
  intros H1. destruct (fs_after_success _ _ _ H1) as [Hdir Hfiles].
  split.
  - eexists. apply create_assets_ok; [by left|].
    apply create_assets_ok_inv in H1 as (_ & _ & HF).
    rewrite Forall_forall in HF. apply Forall_forall. intros a Ha.
    destruct (HF a Ha) as [Hr Hf].
    specialize (Hfiles a Ha). rewrite (asset_path_assets a Ha) in *.
    split_and!; [|done|done]. by rewrite Hfiles.
  - intros E' w2 H2.
    assert (fs w2 = fs w1) as Heq.
    { apply create_assets_ok_inv in H2 as (-> & _ & _).
      unfold after. cbn [fs]. rewrite insert_id by done.
      by apply store_all_id. }
    split; [done|]. intros a Ha. rewrite Heq. auto.
Qed.

Lemma second_run_leaves_same_bytes_witness :
  exists w2,
    create_assets quiet (snd (create_assets quiet (start ∅))) = (Ok tt, w2).
Proof.
  refine (proj1 (second_run_leaves_same_bytes quiet (start ∅) _ _)).
  vm_compute. reflexivity.
Defined.

(** C7.  When ["assets"] is already a directory, a run that returns
    normally changes the file system at the four asset paths and nowhere
    else. *)
Theorem unrelated_files_untouched E w w' q :
  fs w !! ["assets"] = Some Dir ->
  create_assets E w = (Ok tt, w') ->
  q ∉ [["assets"; "icon.png"]; ["assets"; "splash.png"];
       ["assets"; "adaptive-icon.png"]; ["assets"; "favicon.png"]] ->
  fs w' !! q = fs w !! q.
Proof.
  intros Hdir H Hq. apply create_assets_ok_inv in H as (-> & _ & _).
  unfold after. cbn [fs]. rewrite insert_id by done.
  by apply store_all_lookup_ne.
Qed.

Lemma unrelated_files_untouched_witness :
  fs (snd (create_assets quiet (start furnished))) !! ["assets"; "font.ttf"]
  = fs (start furnished) !! ["assets"; "font.ttf"].
Proof.
  apply (unrelated_files_untouched quiet (start furnished)
           (snd (create_assets quiet (start furnished)))).
  - vm_compute. reflexivity.
  - vm_compute. reflexivity.
  - apply (bool_decide_unpack _). vm_compute. reflexivity.
Defined.

(** C8.  Two runs that return normally, under any two environments
    (arguments, environment variables, clock, locale, permissions) and
    from any two file systems, perform the same events with the same
    bytes and leave the same content in each of the four files. *)
Theorem written_bytes_fixed_by_program E1 E2 m1 m2 w1 w2 :
  create_assets E1 (start m1) = (Ok tt, w1) ->
  create_assets E2 (start m2) = (Ok tt, w2) ->
  trace w1 = trace w2 /\
  forall a, a ∈ assets ->
    fs w1 !! asset_path a = Some (File payload) /\
    fs w2 !! asset_path a = Some (File payload).
Proof.
  intros H1 H2.
  destruct (fs_after_success _ _ _ H1) as [_ Hf1].
  destruct (fs_after_success _ _ _ H2) as [_ Hf2].
  apply create_assets_ok_inv in H1 as (-> & _ & _).
  apply create_assets_ok_inv in H2 as (-> & _ & _).
  split; [done|]. intros a Ha. split; [by apply Hf1|by apply Hf2].
Qed.

Lemma written_bytes_fixed_by_program_witness :
  trace (snd (create_assets quiet (start ∅))) =
  trace (snd (create_assets elsewhere (start furnished))).
Proof.
  refine (proj1 (written_bytes_fixed_by_program quiet elsewhere ∅ furnished
                   _ _ _ _)); vm_compute; reflexivity.
Defined.

(** C9.  [os.makedirs(name, exist_ok=True)] on a well-formed file
    system: when the directory is there already the call returns
    normally and leaves the file system as it was; when every prefix of
    the path is a directory or is missing and may be created, the call
    returns normally, every prefix is a directory afterwards, and nothing
    that existed or lies off the path has changed. *)
Theorem makedirs_ensures_directory E name w :
  resolve name <> [] ->
  well_formed (fs w) ->
  (fs w !! resolve name = Some Dir ->
   exists w', makedirs E name true w = (Ok tt, w') /\ fs w' = fs w) /\
  (Forall (fun q => creatable E (fs w) q = true) (prefixes (resolve name)) ->
   exists w', makedirs E name true w = (Ok tt, w') /\
     well_formed (fs w') /\
     Forall (fun q => fs w' !! q = Some Dir) (prefixes (resolve name)) /\
     (forall q, is_Some (fs w !! q) \/ q ∉ prefixes (resolve name) ->
                fs w' !! q = fs w !! q)).
Proof.
  intros Hne Hwf.
  assert (Hrun : makedirs E name true w =
                 makedirs_rev E (rev (resolve name)) true w).
  { reflexivity. }
  assert (Hrev : rev (resolve name) <> []).
  { intros Hr. apply Hne. by rewrite <- (rev_involutive (resolve name)), Hr. }
  assert (Hgen :
    Forall (fun q => creatable E (fs w) q = true) (prefixes (resolve name)) ->
    exists w', makedirs E name true w = (Ok tt, w') /\
               ensured w (resolve name) w').
  { intros Hc. rewrite Hrun.
    pose proof (makedirs_rev_ok E (rev (resolve name)) w Hrev Hwf) as H.
    rewrite rev_involutive in H. by apply H. }
  split.
  - intros Hdir.
    pose proof (well_formed_prefixes _ _ Hwf Hdir) as Hall.
    destruct Hgen as (w' & Hw' & _ & _ & Hsame).
    { eapply Forall_impl; [exact Hall|]. simpl. intros q Hq.
      unfold creatable. by rewrite Hq. }
    exists w'. split; [done|]. apply map_eq. intros q. apply Hsame.
    destruct (decide (q ∈ prefixes (resolve name))) as [Hin|Hnin]; [|by right].
    left. rewrite Forall_forall in Hall. by rewrite (Hall q Hin).
  - intros Hc. destruct (Hgen Hc) as (w' & Hw' & Hens). by exists w'.
Qed.

Lemma makedirs_ensures_directory_witness :
  (exists w', makedirs quiet "assets" true (start furnished) = (Ok tt, w') /\
              fs w' = furnished) /\
  (exists w', makedirs quiet "assets" true (start ∅) = (Ok tt, w') /\
              fs w' !! ["assets"] = Some Dir).
Proof.
  split.
  - destruct (makedirs_ensures_directory quiet "assets" (start furnished))
      as [H _].
    + vm_compute. discriminate.
    + apply (bool_decide_unpack _). vm_compute. reflexivity.
    + apply H. vm_compute. reflexivity.
  - destruct (makedirs_ensures_directory quiet "assets" (start ∅))
      as [_ H].
    + vm_compute. discriminate.
    + apply (bool_decide_unpack _). vm_compute. reflexivity.
    + destruct H as (w' & Hw' & _ & Hd & _).
      * repeat constructor.
      * exists w'. split; [exact Hw'|]. by apply Forall_inv in Hd.
Defined.

(** C10.  The four names are pairwise distinct and free of separators;
    hence, however a run ends, every path it opened or wrote is
    [assets/<name>] for a listed name, no path was opened twice and none
    was written twice. *)
Theorem each_target_written_at_most_once E m r w' :
  create_assets E (start m) = (r, w') ->
  NoDup assets /\
  Forall (fun a => has_sep a = false) assets /\
  NoDup (asset_path <$> assets) /\
  (forall p, p ∈ opened (trace w') ->
     exists a, a ∈ assets /\ p = ["assets"; a]) /\
  (forall p, p ∈ written (trace w') -> p ∈ opened (trace w')) /\
  NoDup (opened (trace w')) /\
  NoDup (written (trace w')).
Proof.
  intros H. apply run_shape in H as (n & k & Hkn & Ho & Hw).
  change (opened (trace w') = asset_path <$> take n assets) in Ho.
  change (written (trace w') = asset_path <$> take k assets) in Hw.
  rewrite Ho, Hw.
  pose proof asset_paths_NoDup as Hnd.
  split_and!.
  - apply assets_NoDup.
  - eapply Forall_impl; [apply assets_plain|]. by intros a [? _].
  - done.
  - intros p (a & -> & Ha)%list_elem_of_fmap.
    apply subseteq_take in Ha. exists a. split; [done|].
    by apply asset_path_assets.
  - intros p (a & -> & Ha)%list_elem_of_fmap.
    apply list_elem_of_fmap_2. apply elem_of_take in Ha as (i & Hi & Hlt).
    apply elem_of_take. exists i. split; [done|lia].
  - rewrite fmap_take. eapply sublist_NoDup; [done|apply sublist_take].
  - rewrite fmap_take. eapply sublist_NoDup; [done|apply sublist_take].
Qed.

Lemma each_target_written_at_most_once_witness :
  NoDup (written (trace (snd (create_assets tight (start ∅))))).
Proof.
  pose proof (each_target_written_at_most_once tight ∅
                (fst (create_assets tight (start ∅)))
                (snd (create_assets tight (start ∅)))) as H.
  destruct H as (_ & _ & _ & _ & _ & _ & H); [vm_compute; reflexivity|].
  exact H.
Defined.


(** * Further properties of the script *)

(** ** What a step can do to the file system *)

Lemma makedirs_assets_fs E w r w0 :
  makedirs E "assets" true w = (r, w0) ->
  fs w0 = fs w \/
  (fs w !! ["assets"] = None /\ fs w0 = <[["assets"] := Dir]> (fs w)).
Proof.
  rewrite makedirs_assets_eq.
  destruct (fs w !! ["assets"]) as [[|d]|]; try (intros; simplify_eq; by left).
  destruct (mkdir_refused E ["assets"]); intros; simplify_eq;
    [by left|by right].
Qed.

Lemma write_asset_fs E d a w r w' :
  write_asset E d a w = (r, w') ->
  fs w' = fs w \/
  (writable E (fs w) (asset_path a) = true /\
   exists x, fs w' = <[asset_path a := File x]> (fs w)).
Proof.
  intros H.
  destruct (write_asset_cases E d a w)
    as [(Hw & Hf & Heq)|[(k & Hw & _ & Hk & Heq)|(e' & Hw & Heq)]];
    rewrite Heq in H; simplify_eq; unfold after; cbn [fs]; eauto.
Qed.


(** A property of the file system that survives every step of the
    script survives the script, however the run ends. *)
Lemma run_fs_invariant (P : gmap path node -> Prop) E w r w' :
  P (fs w) ->
  (forall m, P m -> m !! ["assets"] = None -> P (<[["assets"] := Dir]> m)) ->
  (forall m a x, P m -> a ∈ assets -> writable E m (asset_path a) = true ->
                 P (<[asset_path a := File x]> m)) ->
  create_assets E w = (r, w') ->
  P (fs w').
Proof.
  intros H0 Hmk Hwr. rewrite create_assets_unfold.
  destruct (makedirs E "assets" true w) as [r0 w0] eqn:Hm.
  assert (H1 : P (fs w0)).
  { apply makedirs_assets_fs in Hm as [->|[Hn ->]]; [done|by apply Hmk]. }
  assert (Hloop : forall l w1 r1 w2,
    l ⊆ assets -> P (fs w1) ->
    for_ l (write_asset E payload) w1 = (r1, w2) -> P (fs w2)).
  { induction l as [|a l IH]; intros w1 r1 w2 Hsub Hp Hfor.
    - unfold for_, ret in Hfor. by simplify_eq.
    - rewrite for_cons in Hfor.
      destruct (write_asset E payload a w1) as [ra wa] eqn:Ha.
      assert (P (fs wa)) as Hpa.
      { apply write_asset_fs in Ha as [->|(Hw & x & ->)]; [done|].
        apply Hwr; [done| |done]. apply Hsub. by left. }
      destruct ra as [[]|e]; [|by simplify_eq].
      eapply IH; [|exact Hpa|exact Hfor].
      intros b Hb. apply Hsub. by right. }
  destruct r0 as [[]|e0]; [|intros; by simplify_eq].
  destruct (for_ assets (write_asset E payload) w0) as [r1 w1] eqn:Hfor.
  pose proof (Hloop assets w0 r1 w1 (reflexivity _) H1 Hfor) as H2.
  destruct r1 as [[]|e1]; intros; by simplify_eq.
Qed.

Lemma well_formed_insert_file m (p : path) x :
  well_formed m -> p <> [] ->
  node_at m (parent p) = Some Dir ->
  node_at m p <> Some Dir ->
  well_formed (<[p := File x]> m).
Proof.
  intros Hwf Hne Hpar Hnd q y Hq. simpl.
  assert (Hup : forall q', q' <> p -> node_at m q' = Some Dir ->
                           node_at (<[p := File x]> m) q' = Some Dir).
  { intros [|s q'] Hq' Hd; [done|]. simpl in *. by rewrite lookup_insert_ne. }
  apply lookup_insert_Some in Hq as [[<- _]|[Hpq Hq]].
  - apply Hup; [|done]. by apply parent_ne.
  - apply Hup; [|exact (Hwf _ _ Hq)].
    intros Heq. apply Hnd. rewrite <- Heq. exact (Hwf _ _ Hq).
Qed.

Lemma failed_makedirs_effect E w e w0 :
  makedirs E "assets" true w = (Raise e, w0) ->
  w0 = after w (fs w) [EvMkdir ["assets"]].
Proof.
  rewrite makedirs_assets_eq.
  destruct (fs w !! ["assets"]) as [[|d]|]; [done|by intros; simplify_eq|].
  destruct (mkdir_refused E ["assets"]); [by intros; simplify_eq|done].
Qed.

Lemma created_inj a b : created a = created b -> a = b.
Proof. unfold created. intros H. by simplify_eq/=. Qed.

(** The console and the files of a run, however it ends: [n] iterations
    completed, their lines are on the console and their files hold the
    payload; the final line is there exactly when the run returned
    normally. *)
Lemma run_console E w r w' :
  create_assets E w = (r, w') ->
  exists n,
    console (trace w') =
      console (trace w) ++ (created <$> take n assets)
        ++ (match r with Ok _ => [success_line] | Raise _ => [] end) /\
    (forall a, a ∈ take n assets ->
       fs w' !! asset_path a = Some (File payload)) /\
    match r with
    | Ok _ => n = length assets
    | Raise _ => (n < length assets)%nat
    end.
Proof.
  intros H. destruct r as [[]|e].
  - exists (length assets). rewrite firstn_all.
    destruct (fs_after_success _ _ _ H) as [_ Hfiles].
    apply create_assets_ok_inv in H as (-> & _ & _).
    split_and!; [|done|done].
    unfold after. cbn [trace].
    change (EvMkdir ["assets"] :: loop_events payload assets
              ++ [EvPrint success_line])
      with ([EvMkdir ["assets"]] ++ loop_events payload assets
              ++ [EvPrint success_line]).
    by rewrite !console_app, console_loop_events.
  - rewrite create_assets_unfold in H.
    destruct (makedirs E "assets" true w) as [[[]|e0] w0] eqn:Hmk.
    + pose proof (makedirs_assets_ok_inv _ _ _ Hmk) as Hw0.
      destruct (for_ assets (write_asset E payload) w0)
        as [[[]|e1] w1] eqn:Hfor; [done|]. simplify_eq.
      apply for_raise_inv in Hfor as (n & a & w1 & Hn & Hpre & Hfail).
      destruct (loop_failure_shape _ _ _ _ _ _ _ Hn Hpre Hfail)
        as (_ & Hc & _ & Hfiles).
      exists n. split_and!; [|done|by apply lookup_lt_Some in Hn].
      rewrite Hc. unfold after. cbn [trace]. rewrite console_app.
      cbn [console omap]. by rewrite !app_nil_r.
    + simplify_eq. exists 0%nat.
      apply failed_makedirs_effect in Hmk as ->.
      unfold after. cbn [trace fs]. rewrite console_app.
      split_and!; [done| |simpl; lia].
      intros a Ha. by apply elem_of_nil in Ha.
Qed.

(** ** The run as a whole *)



(** X2.  However a run ends, it removes no entry, leaves every path
    other than ["assets"] and the four asset paths as it was, and
    leaves an existing ["assets"] entry as it was. *)
Theorem run_removes_nothing E w r w' :
  create_assets E w = (r, w') ->
  (forall q, is_Some (fs w !! q) -> is_Some (fs w' !! q)) /\
  (forall q, q <> ["assets"] ->
     q ∉ [["assets"; "icon.png"]; ["assets"; "splash.png"];
          ["assets"; "adaptive-icon.png"]; ["assets"; "favicon.png"]] ->
     fs w' !! q = fs w !! q) /\
  (forall x, fs w !! ["assets"] = Some x -> fs w' !! ["assets"] = Some x).
Proof.
  intros H.
  change [["assets"; "icon.png"]; ["assets"; "splash.png"];
          ["assets"; "adaptive-icon.png"]; ["assets"; "favicon.png"]]
    with (asset_path <$> assets).
  apply (run_fs_invariant
           (fun m : gmap path node =>
              (forall q : path, is_Some (fs w !! q) -> is_Some (m !! q)) /\
              (forall q : path,
                 q <> ["assets"] -> q ∉ asset_path <$> assets ->
                 m !! q = fs w !! q) /\
              (forall x : node, fs w !! ["assets"] = Some x ->
                                m !! ["assets"] = Some x))
           E w r w'); [done| | |done].
  - intros m (H1 & H2 & H3) Hn. split_and!.
    + intros q Hq. rewrite lookup_insert_is_Some. destruct (decide (["assets"] = q)); auto.
    + intros q Hq Hq'. rewrite lookup_insert_ne by done. by apply H2.
    + intros x Hx. rewrite (H3 x Hx) in Hn. done.
  - intros m a x (H1 & H2 & H3) Ha _. split_and!.
    + intros q Hq. rewrite lookup_insert_is_Some.
      destruct (decide (asset_path a = q)); auto.
    + intros q Hq Hq'. rewrite lookup_insert_ne; [by apply H2|].
      intros <-. apply Hq'. by apply list_elem_of_fmap_2.
    + intros y Hy. rewrite lookup_insert_ne; [by apply H3|].
      intros Heq. apply assets_dir_not_asset_path. rewrite <- Heq.
      by apply list_elem_of_fmap_2.
Qed.

Lemma run_removes_nothing_witness :
  fs (snd (create_assets tight (start furnished))) !! ["app.json"]
  = Some (File [123; 125]).
Proof.
  destruct (run_removes_nothing tight (start furnished)
              (fst (create_assets tight (start furnished)))
              (snd (create_assets tight (start furnished))))
    as (_ & H & _); [vm_compute; reflexivity|].
  rewrite H; [vm_compute; reflexivity|discriminate|].
  apply (bool_decide_unpack _). vm_compute. reflexivity.
Defined.

(** X3.  However a run ends, a file system in which every entry lies
    in a directory is still such a file system afterwards. *)
Theorem run_keeps_well_formed E w r w' :
  well_formed (fs w) ->
  create_assets E w = (r, w') ->
  well_formed (fs w').
Proof.
  intros Hwf H.
  apply (run_fs_invariant well_formed E w r w'); [done| | |done].
  - intros m Hm _. by apply well_formed_insert_dir.
  - intros m a x Hm _ Hw.
    pose proof (writable_nonempty _ _ _ Hw) as Hne.
    apply writable_inv in Hw as (Hpar & Hnd & _).
    by apply well_formed_insert_file.
Qed.

Lemma run_keeps_well_formed_witness :
  well_formed (fs (snd (create_assets tight (start furnished)))).
Proof.
  apply (run_keeps_well_formed tight (start furnished)
           (fst (create_assets tight (start furnished)))).
  - apply (bool_decide_unpack _). vm_compute. reflexivity.
  - vm_compute. reflexivity.
Defined.





(** ** One iteration of the loop *)





(** ** Console and files together *)

(** X8.  However a run ends, a [Created <name>] line on the console
    means that [assets/<name>] holds the payload. *)
Theorem created_line_means_file_stored E m r w' name :
  create_assets E (start m) = (r, w') ->
  created name ∈ console (trace w') ->
  fs w' !! asset_path name = Some (File payload).
Proof.
  intros H Hin. apply run_console in H as (n & Hc & Hfiles & _).
  change (console (trace (start m))) with (@nil string) in Hc.
  rewrite app_nil_l in Hc. rewrite Hc in Hin.
  apply elem_of_app in Hin as [Hin|Hin].
  - apply list_elem_of_fmap in Hin as (b & Hb & Hin).
    apply created_inj in Hb as ->. by apply Hfiles.
  - destruct r; [|by apply elem_of_nil in Hin].
    apply list_elem_of_singleton in Hin. discriminate Hin.
Qed.

Lemma created_line_means_file_stored_witness :
  fs (snd (create_assets tight (start ∅))) !! asset_path "icon.png"
  = Some (File payload).
Proof.
  apply (created_line_means_file_stored tight ∅
           (fst (create_assets tight (start ∅)))).
  - vm_compute. reflexivity.
  - apply (bool_decide_unpack _). vm_compute. reflexivity.
Defined.

(** X9.  However a run ends, its console output is an initial part of
    the five lines of a complete run, and the final line is there
    exactly when the run returned normally. *)
Theorem success_line_iff_returned E m r w' :
  create_assets E (start m) = (r, w') ->
  console (trace w') `prefix_of`
    ["Created icon.png"; "Created splash.png"; "Created adaptive-icon.png";
     "Created favicon.png"; "All placeholder assets created successfully!"] /\
  ("All placeholder assets created successfully!" ∈ console (trace w')
   <-> r = Ok tt).
Proof.
  intros H. apply run_console in H as (n & Hc & _ & Hn).
  change (console (trace (start m))) with (@nil string) in Hc.
  rewrite app_nil_l in Hc. rewrite Hc.
  change ["Created icon.png"; "Created splash.png";
          "Created adaptive-icon.png"; "Created favicon.png";
          "All placeholder assets created successfully!"]
    with ((created <$> assets) ++ [success_line]).
  change "All placeholder assets created successfully!" with success_line.
  destruct r as [[]|e].
  - subst n. rewrite firstn_all. split; [done|].
    split; [done|]. intros _. apply elem_of_app. right. by left.
  - rewrite app_nil_r. split.
    + rewrite fmap_take. apply prefix_app_r, prefix_take.
    + split; [|done]. intros Hin. by apply success_line_not_created in Hin.
Qed.

Lemma success_line_iff_returned_witness :
  console (trace (snd (create_assets tight (start ∅)))) `prefix_of`
    ["Created icon.png"; "Created splash.png"; "Created adaptive-icon.png";
     "Created favicon.png"; "All placeholder assets created successfully!"].
Proof.
  refine (proj1 (success_line_iff_returned tight ∅
                   (fst (create_assets tight (start ∅))) _ _)).
  vm_compute. reflexivity.
Defined.


